(** * Furry-Bomb: phyllotaxis flower generator (furry_bomb.py)

    A shallow embedding of [getTNBfromVector], [draw_lsystem] and
    [PhyllotaxisFlower.geometry].  Python floats are idealised as the real
    numbers of the Standard Library; the [mathutils] vectors and matrices are
    modelled by records over [R], with the library operations the script calls
    ([normalized], [cross], [length], [Matrix.Rotation], [rotate], [@])
    written out.  The mesh under construction, the console and a raised
    exception are explicit: a computation maps a [World] to an outcome and
    the world it leaves behind. *)

From Stdlib Require Import Reals Lra Psatz RNsatz.
From Stdlib Require Import ZArith List String Ascii Bool Lia.
Import ListNotations.

Open Scope R_scope.

(** ** mathutils.Vector (3 components) *)

Record Vector : Type := Vec { vx : R; vy : R; vz : R }.

Module V.

Definition zero : Vector := Vec 0 0 0.

Definition add (a b : Vector) : Vector :=
  Vec (vx a + vx b) (vy a + vy b) (vz a + vz b).

Definition sub (a b : Vector) : Vector :=
  Vec (vx a - vx b) (vy a - vy b) (vz a - vz b).

(** [v * s] *)
Definition scale (v : Vector) (s : R) : Vector :=
  Vec (vx v * s) (vy v * s) (vz v * s).

Definition dot (a b : Vector) : R :=
  vx a * vx b + vy a * vy b + vz a * vz b.

(** [a.cross(b)] *)
Definition cross (a b : Vector) : Vector :=
  Vec (vy a * vz b - vz a * vy b)
      (vz a * vx b - vx a * vz b)
      (vx a * vy b - vy a * vx b).

(** [v.length] *)
Definition length (v : Vector) : R := sqrt (dot v v).

(** [v.normalized()], also the in-place [v.normalize()]: a vector of length
    zero is left as the zero vector, any other is scaled by the reciprocal of
    its length. *)
Definition normalized (v : Vector) : Vector :=
  if Req_dec_T (length v) 0 then zero else scale v (1 / length v).

End V.

Infix "+v" := V.add (at level 50, left associativity).
Infix "-v" := V.sub (at level 50, left associativity).

(** ** furry_bomb.py, lines 11-31 *)

(** The result is the Python tuple [(T, N, B)]. *)
Definition getTNBfromVector (v : Vector) : Vector * Vector * Vector :=
  let N := V.normalized v in
  let B := V.cross N (Vec 0 0 (-1)) in
  if Req_dec_T (V.length B) 0 then
    (Vec 0 1 0, N, Vec 1 0 0)
  else
    let B := V.normalized B in
    let T := V.normalized (V.cross N B) in
    (T, N, B).

Definition frameT (f : Vector * Vector * Vector) : Vector := fst (fst f).
Definition frameN (f : Vector * Vector * Vector) : Vector := snd (fst f).
Definition frameB (f : Vector * Vector * Vector) : Vector := snd f.

(** ** mathutils.Matrix *)

Record Matrix3 : Type := Mat3 { row0 : Vector; row1 : Vector; row2 : Vector }.

Record Row4 : Type := R4 { c0 : R; c1 : R; c2 : R; c3 : R }.

Record Matrix4 : Type := Mat4 { m0 : Row4; m1 : Row4; m2 : Row4; m3 : Row4 }.

Module Mx.

Definition identity3 : Matrix3 := Mat3 (Vec 1 0 0) (Vec 0 1 0) (Vec 0 0 1).

(** [M.to_4x4()]: the 3x3 block, padded with the identity. *)
Definition to_4x4 (a : Matrix3) : Matrix4 :=
  Mat4 (R4 (vx (row0 a)) (vy (row0 a)) (vz (row0 a)) 0)
       (R4 (vx (row1 a)) (vy (row1 a)) (vz (row1 a)) 0)
       (R4 (vx (row2 a)) (vy (row2 a)) (vz (row2 a)) 0)
       (R4 0 0 0 1).

(** The rotation block a 4x4 matrix is read as by [Vector.rotate]. *)
Definition to_3x3 (a : Matrix4) : Matrix3 :=
  Mat3 (Vec (c0 (m0 a)) (c1 (m0 a)) (c2 (m0 a)))
       (Vec (c0 (m1 a)) (c1 (m1 a)) (c2 (m1 a)))
       (Vec (c0 (m2 a)) (c1 (m2 a)) (c2 (m2 a))).

(** [M.transposed()] *)
Definition transposed (a : Matrix4) : Matrix4 :=
  Mat4 (R4 (c0 (m0 a)) (c0 (m1 a)) (c0 (m2 a)) (c0 (m3 a)))
       (R4 (c1 (m0 a)) (c1 (m1 a)) (c1 (m2 a)) (c1 (m3 a)))
       (R4 (c2 (m0 a)) (c2 (m1 a)) (c2 (m2 a)) (c2 (m3 a)))
       (R4 (c3 (m0 a)) (c3 (m1 a)) (c3 (m2 a)) (c3 (m3 a))).

Definition mul3 (a : Matrix3) (v : Vector) : Vector :=
  Vec (V.dot (row0 a) v) (V.dot (row1 a) v) (V.dot (row2 a) v).

(** [M @ v] for a 4x4 matrix and a 3-component vector: the vector is
    extended by a fourth component 1 and the first three components of the
    product are returned. *)
Definition matmul (a : Matrix4) (v : Vector) : Vector :=
  Vec (c0 (m0 a) * vx v + c1 (m0 a) * vy v + c2 (m0 a) * vz v + c3 (m0 a) * 1)
      (c0 (m1 a) * vx v + c1 (m1 a) * vy v + c2 (m1 a) * vz v + c3 (m1 a) * 1)
      (c0 (m2 a) * vx v + c1 (m2 a) * vy v + c2 (m2 a) * vz v + c3 (m2 a) * 1).

(** [Matrix.Rotation(angle, 4, 'Z')] *)
Definition Rotation_Z (angle : R) : Matrix4 :=
  to_4x4 (Mat3 (Vec (cos angle) (- sin angle) 0)
               (Vec (sin angle) (cos angle) 0)
               (Vec 0 0 1)).

(** Rotation by [angle] about the unit axis [a] (Rodrigues' formula). *)
Definition axis_angle_normalized (a : Vector) (angle : R) : Matrix3 :=
  let co := cos angle in
  let si := sin angle in
  let ico := 1 - co in
  Mat3 (Vec (vx a * vx a * ico + co)
            (vx a * vy a * ico - vz a * si)
            (vx a * vz a * ico + vy a * si))
       (Vec (vx a * vy a * ico + vz a * si)
            (vy a * vy a * ico + co)
            (vy a * vz a * ico - vx a * si))
       (Vec (vx a * vz a * ico - vy a * si)
            (vy a * vz a * ico + vx a * si)
            (vz a * vz a * ico + co)).

(** [Matrix.Rotation(angle, 4, axis)] for a vector [axis]: the axis is
    normalised first, and an axis of length zero gives the identity. *)
Definition Rotation (angle : R) (axis : Vector) : Matrix4 :=
  to_4x4 (if Req_dec_T (V.length axis) 0 then identity3
          else axis_angle_normalized (V.normalized axis) angle).

(** [v.rotate(M)] *)
Definition rotate (v : Vector) (a : Matrix4) : Vector := mul3 (to_3x3 a) v.

End Mx.

(** ** math *)

Definition radians (x : R) : R := x * (PI / 180).

Definition degrees (x : R) : R := x * (180 / PI).

(** [math.atan2(y, x)], with [atan2(0, 0) = 0]. *)
Definition atan2 (y x : R) : R :=
  if Rlt_dec 0 x then atan (y / x)
  else if Rlt_dec x 0 then
    (if Rle_dec 0 y then atan (y / x) + PI else atan (y / x) - PI)
  else if Rlt_dec 0 y then PI / 2
  else if Rlt_dec y 0 then - (PI / 2)
  else 0.

(** ** Constants, lines 8-9 *)


Definition GOLDEN_ANGLE : R := PI * (3 - sqrt 5).

(** ** The state the script acts on

    [verts] holds the coordinate of every vertex of the bmesh, in creation
    order; a [BMVert] is its index.  [faces] holds the faces, each the list
    of its vertices.  [stdout] holds the printed lines. *)

Record World : Type := mkWorld {
  verts : list Vector;
  faces : list (list nat);
  stdout : list string
}.

Inductive exn : Type := ZeroDivisionError | ValueError.

Inductive outcome (A : Type) : Type :=
| Ret (a : A)
| Raise (e : exn).
Arguments Ret {A} a.
Arguments Raise {A} e.

Definition M (A : Type) : Type := World -> outcome A * World.

Definition ret {A} (a : A) : M A := fun w => (Ret a, w).

Definition bind {A B} (c : M A) (k : A -> M B) : M B :=
  fun w => match c w with
           | (Ret a, w') => k a w'
           | (Raise e, w') => (Raise e, w')
           end.

Definition raise {A} (e : exn) : M A := fun w => (Raise e, w).

Notation "x <- c ;; k" := (bind c (fun x => k))
  (at level 61, c at next level, right associativity).
Notation "c ;;; k" := (bind c (fun _ => k))
  (at level 61, right associativity).

(** [try: body  except ValueError: handler] *)
Definition try_except_ValueError (body handler : M unit) : M unit :=
  fun w => match body w with
           | (Raise ValueError, w') => handler w'
           | r => r
           end.

(** [for x in l: body] *)
Fixpoint for_each {A} (l : list A) (body : A -> M unit) : M unit :=
  match l with
  | [] => ret tt
  | x :: l' => body x ;;; for_each l' body
  end.

(** A loop that rebinds local variables: [s] holds them. *)
Fixpoint for_fold {A S} (l : list A) (body : S -> A -> M S) (s : S) : M S :=
  match l with
  | [] => ret s
  | x :: l' => s' <- body s x ;; for_fold l' body s'
  end.

(** [range(n)] *)
Definition range (n : Z) : list Z := map Z.of_nat (seq 0 (Z.to_nat n)).

(** [a / b] on Python numbers *)
Definition pydiv (a b : R) : M R :=
  if Req_dec_T b 0 then raise ZeroDivisionError else ret (a / b).

(** [print(s)] *)
Definition print (s : string) : M unit :=
  fun w => (Ret tt, mkWorld (verts w) (faces w) (stdout w ++ [s])).

(** [bmesh.new()] *)
Definition bmesh_new : M unit :=
  fun w => (Ret tt, mkWorld [] [] (stdout w)).

(** [bm.verts.new(co)] *)
Definition bm_verts_new (co : Vector) : M nat :=
  fun w => (Ret (List.length (verts w)),
            mkWorld (verts w ++ [co]) (faces w) (stdout w)).

(** [vert.co] *)
Definition get_co (vert : nat) : M Vector :=
  fun w => (Ret (nth vert (verts w) V.zero), w).

Fixpoint list_set {A} (l : list A) (k : nat) (a : A) : list A :=
  match l, k with
  | [], _ => []
  | _ :: l', O => a :: l'
  | x :: l', S k' => x :: list_set l' k' a
  end.

(** [vert.co = co]; a [BMVert] always names a vertex of the mesh. *)
Definition set_co (vert : nat) (co : Vector) : M unit :=
  fun w => (Ret tt, mkWorld (list_set (verts w) vert co) (faces w) (stdout w)).

(** ** dict and str *)

Definition dict : Type := list (string * string).

(** [d.get(key, default)] *)
Fixpoint dict_get (d : dict) (key default : string) : string :=
  match d with
  | [] => default
  | (k, v) :: d' => if String.eqb k key then v else dict_get d' key default
  end.

(** The one-character string a [for char in s] loop binds. *)
Definition char_str (c : ascii) : string := String c EmptyString.

(** ** furry_bomb.py, lines 33-78 *)

(** Lines 49-52: one round of rewriting. *)
Definition rewrite_round (rules : dict) (current_string : string) : string :=
  fold_left
    (fun next_string char =>
       (next_string ++ dict_get rules (char_str char) (char_str char))%string)
    (list_ascii_of_string current_string) EmptyString.

(** Lines 47-52. *)
Fixpoint expand (rules : dict) (iterations : nat) (current_string : string)
  : string :=
  match iterations with
  | O => current_string
  | S k => expand rules k (rewrite_round rules current_string)
  end.

(** The local variables of the walk: [position], [direction], [vert_list]. *)
Definition turtle : Type := (Vector * Vector * list nat)%type.

(** Lines 57-65. *)
Definition walk_step (angle distance : R) (t : turtle) (char : ascii)
  : M turtle :=
  let '(position, direction, vert_list) := t in
  if Ascii.eqb char "F" then
    let next_position := position +v V.scale direction distance in
    vert <- bm_verts_new next_position ;;
    ret (next_position, direction, vert_list ++ [vert])
  else if Ascii.eqb char "+" then
    ret (position,
         Mx.rotate direction (Mx.Rotation_Z (radians angle)), vert_list)
  else if Ascii.eqb char "-" then
    ret (position,
         Mx.rotate direction (Mx.Rotation_Z (- radians angle)), vert_list)
  else ret t.

(** Lines 76-78. *)
Definition twist_vert (rotation_matrix : Matrix4) (position : Vector)
  (vert : nat) : M unit :=
  co <- get_co vert ;; set_co vert (co -v position) ;;;
  co <- get_co vert ;; set_co vert (Mx.matmul rotation_matrix co) ;;;
  co <- get_co vert ;; set_co vert (co +v position).

Definition face_error : string :=
  "Could not create a face with the given vertices.".

Section Backend.

(** Whether [bm.faces.new] builds the face on the mesh as it is; when it
    does not it raises [ValueError]. *)
Variable faces_accepts : World -> list nat -> bool.

(** [bm.faces.new(vert_list)] *)
Definition bm_faces_new (vert_list : list nat) : M unit :=
  fun w => if faces_accepts w vert_list
           then (Ret tt, mkWorld (verts w) (faces w ++ [vert_list]) (stdout w))
           else (Raise ValueError, w).

Definition draw_lsystem (position : Vector) (axiom : string) (rules : dict)
  (iterations : Z) (angle distance rotation_angle : R) : M unit :=
  let current_string := expand rules (Z.to_nat iterations) axiom in
  let direction := Vec 0 1 0 in
  t <- for_fold (list_ascii_of_string current_string)
         (walk_step angle distance) (position, direction, []) ;;
  let '(position, direction, vert_list) := t in
  if (2 <? List.length vert_list)%nat then
    try_except_ValueError (bm_faces_new vert_list) (print face_error) ;;;
    let rotation_matrix :=
      Mx.Rotation (radians rotation_angle) (V.normalized position) in
    for_each vert_list (twist_vert rotation_matrix position)
  else ret tt.

(** ** furry_bomb.py, lines 80-147 *)

(** The attributes [__init__] sets and [geometry] reads. *)
Record PhyllotaxisFlower : Type := mkFlower {
  self_n : Z;
  self_m : Z;
  self_r0 : R;
  self_r1 : R;
  self_r2 : R;
  self_h0 : R;
  self_h1 : R
}.

(** Lines 87-95. *)
Definition init : PhyllotaxisFlower := mkFlower 200 10 10 10 1 50 2.

(** Lines 116-122: [t0] and the anchor [p0] of flower [i]. *)
Definition flower_anchor (self : PhyllotaxisFlower) (i : Z) : M (R * Vector) :=
  t0 <- pydiv (IZR i) (IZR (self_n self)) ;;
  let r0 := t0 * self_r0 self in
  let theta := IZR i * GOLDEN_ANGLE in
  let x := r0 * cos theta in
  let y := r0 * sin theta in
  a <- pydiv (self_h0 self) 2 ;;
  b <- pydiv (self_h0 self) (self_r0 self * self_r0 self) ;;
  let z := a - b * r0 * r0 in
  ret (t0, Vec x y z).

(** Lines 128-135: the local position [p1] of petal [j]. *)
Definition petal_local (self : PhyllotaxisFlower) (t0 : R) (j : Z) : M Vector :=
  t1 <- pydiv (IZR j) (IZR (self_m self)) ;;
  let t2 := 4 / 10 + 6 / 10 * t0 in
  let r1 := t2 * t1 * self_r1 self in
  let theta := IZR j * GOLDEN_ANGLE in
  let x := r1 * cos theta in
  let y := r1 * sin theta in
  b <- pydiv (self_h1 self) (self_r1 self * self_r1 self) ;;
  let z := self_h1 self - b * r1 * r1 in
  ret (Vec x y z).

(** [Matrix([T, B, N]).to_4x4().transposed()] *)
Definition frame_matrix (f : Vector * Vector * Vector) : Matrix4 :=
  Mx.transposed (Mx.to_4x4 (Mat3 (frameT f) (frameB f) (frameN f))).

(** Lines 139-144: the world anchor [p] and the twist of a petal. *)
Definition petal_anchor (p0 : Vector) (M0 : Matrix4) (p1 : Vector) : Vector :=
  p0 +v Mx.matmul M0 p1.

Definition petal_twist (p : Vector) : R :=
  let center_angle := atan2 (vy p) (vx p) in
  let angle_offset := 45 in
  degrees center_angle - angle_offset.

Definition koch_axiom : string := "F++F++F".
Definition koch_rules : dict := [("F", "F-F++F-F")]%string.

(** Lines 128-145: the body of the loop on [j]. *)
Definition petal (self : PhyllotaxisFlower) (t0 : R) (p0 : Vector)
  (M0 : Matrix4) (j : Z) : M unit :=
  p1 <- petal_local self t0 j ;;
  let M1 := frame_matrix (getTNBfromVector p1) in
  let p := petal_anchor p0 M0 p1 in
  draw_lsystem p koch_axiom koch_rules 4 60 (5 / 100) (petal_twist p).

(** Lines 116-145: the body of the loop on [i]. *)
Definition flower (self : PhyllotaxisFlower) (i : Z) : M unit :=
  a <- flower_anchor self i ;;
  let '(t0, p0) := a in
  let M0 := frame_matrix (getTNBfromVector p0) in
  for_each (range (self_m self)) (petal self t0 p0 M0).

(** Lines 114-147; the mesh it returns is the one of the final world. *)
Definition geometry (self : PhyllotaxisFlower) : M unit :=
  bmesh_new ;;;
  for_each (range (self_n self)) (flower self).

End Backend.

(** The world before the script runs. *)
Definition world0 : World := mkWorld [] [] [].

(** ** Notions the statements use *)




(** The walk of lines 54-65 read without the mesh: the final [position] and
    [direction], and the coordinates of the vertices it creates, in order. *)
Fixpoint trace (angle distance : R) (position direction : Vector)
  (s : list ascii) : Vector * Vector * list Vector :=
  match s with
  | [] => (position, direction, [])
  | char :: s' =>
    if Ascii.eqb char "F" then
      let next_position := position +v V.scale direction distance in
      let r := trace angle distance next_position direction s' in
      (fst (fst r), snd (fst r), next_position :: snd r)
    else if Ascii.eqb char "+" then
      trace angle distance position
        (Mx.rotate direction (Mx.Rotation_Z (radians angle))) s'
    else if Ascii.eqb char "-" then
      trace angle distance position
        (Mx.rotate direction (Mx.Rotation_Z (- radians angle))) s'
    else trace angle distance position direction s'
  end.

(** The walk [draw_lsystem] makes from [position]. *)
Definition lsystem_trace (position : Vector) (axiom : string) (rules : dict)
  (iterations : Z) (angle distance : R) : Vector * Vector * list Vector :=
  trace angle distance position (Vec 0 1 0)
    (list_ascii_of_string (expand rules (Z.to_nat iterations) axiom)).

Definition cursor (r : Vector * Vector * list Vector) : Vector := fst (fst r).
Definition emitted (r : Vector * Vector * list Vector) : list Vector := snd r.

(** Lines 73 and 76-78 on one coordinate: the pivot [c] is the value of
    [position] when the walk is over. *)
Definition twisted (rotation_angle : R) (c co : Vector) : Vector :=
  Mx.matmul (Mx.Rotation (radians rotation_angle) (V.normalized c)) (co -v c)
  +v c.

Definition count_F (s : list ascii) : nat :=
  List.length (filter (fun char => Ascii.eqb char "F") s).

(** A backend that builds every face it is asked for, and one that builds
    none. *)
Definition accept_all : World -> list nat -> bool := fun _ _ => true.
Definition reject_all : World -> list nat -> bool := fun _ _ => false.

(** The values lines 116-122 and 128-135 compute when no division fails. *)
Definition anchor_value (self : PhyllotaxisFlower) (i : Z) : R * Vector :=
  let t0 := IZR i / IZR (self_n self) in
  let r0 := t0 * self_r0 self in
  let theta := IZR i * GOLDEN_ANGLE in
  (t0,
   Vec (r0 * cos theta) (r0 * sin theta)
       (self_h0 self / 2
        - self_h0 self / (self_r0 self * self_r0 self) * r0 * r0)).

Definition local_value (self : PhyllotaxisFlower) (t0 : R) (j : Z) : Vector :=
  let t1 := IZR j / IZR (self_m self) in
  let t2 := 4 / 10 + 6 / 10 * t0 in
  let r1 := t2 * t1 * self_r1 self in
  let theta := IZR j * GOLDEN_ANGLE in
  Vec (r1 * cos theta) (r1 * sin theta)
      (self_h1 self
       - self_h1 self / (self_r1 self * self_r1 self) * r1 * r1).

(** The position and the twist that petal [j] of flower [i] passes to
    [draw_lsystem]. *)
Definition petal_call (self : PhyllotaxisFlower) (i j : Z) : Vector * R :=
  let '(t0, p0) := anchor_value self i in
  let M0 := frame_matrix (getTNBfromVector p0) in
  let p := petal_anchor p0 M0 (local_value self t0 j) in
  (p, petal_twist p).

(** All of them, flower by flower. *)
Definition petal_calls (self : PhyllotaxisFlower) : list (Vector * R) :=
  flat_map (fun i => map (petal_call self i) (range (self_m self)))
    (range (self_n self)).

(** Line 145 on one such pair. *)
Definition emit (faces_accepts : World -> list nat -> bool)
  (call : Vector * R) : M unit :=
  draw_lsystem faces_accepts (fst call) koch_axiom koch_rules 4 60 (5 / 100)
    (snd call).


(** ** Facts on vectors *)

Lemma vec_eq (a b : Vector) :
  vx a = vx b -> vy a = vy b -> vz a = vz b -> a = b.
Proof. destruct a, b; simpl; intros; subst; reflexivity. Qed.

Lemma dot_self_nonneg (v : Vector) : 0 <= V.dot v v.
Proof. unfold V.dot. nra. Qed.

Lemma dot_self_zero (v : Vector) : V.dot v v = 0 -> v = V.zero.
Proof.
  unfold V.dot. intros H. apply vec_eq; simpl; nra.
Qed.

Lemma length_nonneg (v : Vector) : 0 <= V.length v.
Proof. apply sqrt_pos. Qed.

Lemma length_sqr (v : Vector) : V.length v * V.length v = V.dot v v.
Proof. unfold V.length. apply sqrt_sqrt, dot_self_nonneg. Qed.

Lemma length_zero_iff (v : Vector) : V.length v = 0 <-> v = V.zero.
Proof.
  split; intros H.
  - apply dot_self_zero. rewrite <- length_sqr, H. ring.
  - subst v. unfold V.length, V.dot; simpl.
    replace (0 * 0 + 0 * 0 + 0 * 0) with 0 by ring. apply sqrt_0.
Qed.


Lemma normalized_zero : V.normalized V.zero = V.zero.
Proof.
  unfold V.normalized.
  destruct (Req_dec_T (V.length V.zero) 0) as [_ | H]; [reflexivity |].
  exfalso. apply H. apply length_zero_iff. reflexivity.
Qed.

Lemma normalized_nonzero (v : Vector) :
  v <> V.zero -> V.normalized v = V.scale v (1 / V.length v).
Proof.
  intros H. unfold V.normalized.
  destruct (Req_dec_T (V.length v) 0) as [E | _]; [| reflexivity].
  exfalso. apply H. apply length_zero_iff. exact E.
Qed.

Lemma normalized_dot (v : Vector) :
  v <> V.zero -> V.dot (V.normalized v) (V.normalized v) = 1.
Proof.
  intros H. rewrite normalized_nonzero by exact H.
  assert (L : V.length v <> 0) by (intros E; apply H, length_zero_iff, E).
  pose proof (length_sqr v) as S.
  unfold V.dot in *; simpl. field_simplify_eq; [| exact L]. nra.
Qed.









(** ** The frame of [getTNBfromVector] *)







(** C7: for every negative [k], the frame of [k * (0,0,1)] has the fixed
    fallback vectors [B = (1,0,0)] and [T = (0,1,0)]. *)
Theorem getTNB_negative_z (k : R) :
  k < 0 ->
  let f := getTNBfromVector (V.scale (Vec 0 0 1) k) in
  frameB f = Vec 1 0 0 /\ frameT f = Vec 0 1 0.
Proof.
  intros Hk f. unfold f, getTNBfromVector.
  set (N := V.normalized (V.scale (Vec 0 0 1) k)).
  assert (Hx : vx N = 0 /\ vy N = 0).
  { unfold N, V.normalized.
    destruct (Req_dec_T _ 0); simpl; split; ring. }
  destruct Hx as [Hx Hy].
  assert (HB : V.cross N (Vec 0 0 (-1)) = V.zero).
  { apply vec_eq; simpl; rewrite ?Hx, ?Hy; ring. }
  rewrite HB.
  destruct (Req_dec_T (V.length V.zero) 0) as [_ | H].
  - split; reflexivity.
  - exfalso. apply H, length_zero_iff. reflexivity.
Qed.

Lemma getTNB_negative_z_witness :
  -2 < 0 /\
  frameB (getTNBfromVector (V.scale (Vec 0 0 1) (-2))) = Vec 1 0 0 /\
  frameT (getTNBfromVector (V.scale (Vec 0 0 1) (-2))) = Vec 0 1 0.
Proof.
  assert (H : -2 < 0) by lra.
  split; [exact H |]. exact (getTNB_negative_z (-2) H).
Defined.

(** C10: on the zero vector [getTNBfromVector] returns
    [T = (0,1,0)], [N = (0,0,0)], [B = (1,0,0)]; no exception is involved,
    and [N] has length 0, not 1. *)
Theorem getTNB_zero_vector :
  getTNBfromVector (Vec 0 0 0) = (Vec 0 1 0, Vec 0 0 0, Vec 1 0 0) /\
  V.normalized (Vec 0 0 0) = Vec 0 0 0 /\
  V.length (V.cross (V.normalized (Vec 0 0 0)) (Vec 0 0 (-1))) = 0 /\
  V.length (frameN (getTNBfromVector (Vec 0 0 0))) <> 1.
Proof.
  assert (HN : V.normalized (Vec 0 0 0) = Vec 0 0 0) by apply normalized_zero.
  assert (HB : V.cross (Vec 0 0 0) (Vec 0 0 (-1)) = V.zero).
  { apply vec_eq; simpl; ring. }
  assert (HL : V.length V.zero = 0) by (apply length_zero_iff; reflexivity).
  assert (HG : getTNBfromVector (Vec 0 0 0) = (Vec 0 1 0, Vec 0 0 0, Vec 1 0 0)).
  { unfold getTNBfromVector. rewrite HN, HB.
    destruct (Req_dec_T (V.length V.zero) 0) as [_ | H];
      [reflexivity | contradiction]. }
  split; [exact HG |]. split; [exact HN |]. split.
  - rewrite HN, HB. exact HL.
  - rewrite HG. unfold frameN; simpl. fold V.zero. rewrite HL. lra.
Qed.

(** ** The expansion *)

(** C2, as amended: one round of rewriting on the axiom "F++F++F" under
    F -> "F-F++F-F" gives a string of 28 symbols: each of the 3 F becomes 8
    symbols and the 4 turn symbols stay. *)
Theorem expand_koch_once_length :
  String.length (expand koch_rules 1 koch_axiom) = (3 * 8 + 4)%nat /\
  expand koch_rules 1 koch_axiom
  = "F-F++F-F++F-F++F-F++F-F++F-F"%string.
Proof. split; reflexivity. Qed.

(** C2 as stated fails: the string after one round does not have 22
    symbols. *)
Lemma expand_koch_once_not_22 :
  String.length (expand koch_rules 1 koch_axiom) <> 22%nat.
Proof. vm_compute. discriminate. Qed.

(** ** Running computations *)

Lemma bind_ret_run {A B} (c : M A) (k : A -> M B) (w w' : World) (a : A) :
  c w = (Ret a, w') -> bind c k w = k a w'.
Proof. intros H. unfold bind. rewrite H. reflexivity. Qed.

Lemma bind_raise_run {A B} (c : M A) (k : A -> M B) (w w' : World) (e : exn) :
  c w = (Raise e, w') -> bind c k w = (Raise e, w').
Proof. intros H. unfold bind. rewrite H. reflexivity. Qed.

Lemma for_each_app {A} (l1 l2 : list A) (body : A -> M unit) (w : World) :
  for_each (l1 ++ l2) body w = (for_each l1 body ;;; for_each l2 body) w.
Proof.
  revert w. induction l1 as [| x l1 IH]; intros w; simpl.
  - reflexivity.
  - unfold bind in *. destruct (body x w) as [[[] | e] w1];
      [apply IH | reflexivity].
Qed.

Lemma for_each_ext_in {A} (l : list A) (f g : A -> M unit) :
  (forall x, In x l -> forall w, f x w = g x w) ->
  forall w, for_each l f w = for_each l g w.
Proof.
  induction l as [| x l IH]; intros H w; simpl.
  - reflexivity.
  - unfold bind. rewrite (H x (or_introl eq_refl) w).
    destruct (g x w) as [[[] | e] w1]; [| reflexivity].
    apply IH. intros y Hy. apply H. right. exact Hy.
Qed.

Lemma for_each_map {A B} (h : A -> B) (l : list A) (f : B -> M unit) (w : World) :
  for_each (map h l) f w = for_each l (fun x => f (h x)) w.
Proof.
  revert w. induction l as [| x l IH]; intros w; simpl.
  - reflexivity.
  - unfold bind. destruct (f (h x) w) as [[[] | e] w1]; [apply IH | reflexivity].
Qed.

(** ** The walk *)

Lemma walk_run (angle distance : R) (s : list ascii) :
  forall (position direction : Vector) (vert_list : list nat) (w : World),
    for_fold s (walk_step angle distance) (position, direction, vert_list) w
    = let r := trace angle distance position direction s in
      (Ret (cursor r, snd (fst r),
            vert_list ++ seq (List.length (verts w)) (List.length (emitted r))),
       mkWorld (verts w ++ emitted r) (faces w) (stdout w)).
Proof.
  induction s as [| char s IH]; intros position direction vert_list w.
  - simpl. unfold ret, cursor, emitted. simpl.
    rewrite !app_nil_r. destruct w; reflexivity.
  - simpl for_fold. unfold bind, walk_step. simpl trace.
    destruct (Ascii.eqb char "F").
    + unfold bind, bm_verts_new, ret. rewrite IH.
      unfold cursor, emitted. simpl.
      rewrite length_app, <- !app_assoc. simpl.
      rewrite Nat.add_1_r. reflexivity.
    + destruct (Ascii.eqb char "+"); [unfold ret; apply IH |].
      destruct (Ascii.eqb char "-"); unfold ret; apply IH.
Qed.

Lemma trace_emitted_length (angle distance : R) (s : list ascii) :
  forall position direction,
    List.length (emitted (trace angle distance position direction s))
    = count_F s.
Proof.
  unfold count_F, emitted.
  induction s as [| char s IH]; intros position direction; simpl.
  - reflexivity.
  - destruct (Ascii.eqb char "F"); simpl.
    + f_equal. apply IH.
    + destruct (Ascii.eqb char "+"); [apply IH |].
      destruct (Ascii.eqb char "-"); apply IH.
Qed.

(** ** The twist loop *)

Lemma list_set_middle {A} (pre post : list A) (x y : A) :
  list_set (pre ++ x :: post) (List.length pre) y = pre ++ y :: post.
Proof.
  induction pre as [| p pre IH]; simpl; [reflexivity | now rewrite IH].
Qed.

Lemma twist_vert_run (rotation_matrix : Matrix4) (c x : Vector)
  (pre post : list Vector) (f : list (list nat)) (o : list string) :
  twist_vert rotation_matrix c (List.length pre) (mkWorld (pre ++ x :: post) f o)
  = (Ret tt,
     mkWorld (pre ++ (Mx.matmul rotation_matrix (x -v c) +v c) :: post) f o).
Proof.
  unfold twist_vert, bind, get_co, set_co; simpl.
  repeat (rewrite nth_middle || rewrite list_set_middle). reflexivity.
Qed.

Lemma twist_loop_run (rotation_matrix : Matrix4) (c : Vector) (l : list Vector) :
  forall (pre : list Vector) (f : list (list nat)) (o : list string),
    for_each (seq (List.length pre) (List.length l))
      (twist_vert rotation_matrix c) (mkWorld (pre ++ l) f o)
    = (Ret tt,
       mkWorld
         (pre ++ map (fun x => Mx.matmul rotation_matrix (x -v c) +v c) l) f o).
Proof.
  induction l as [| x l IH]; intros pre f o; simpl.
  - reflexivity.
  - rewrite (bind_ret_run _ _ _ _ tt (twist_vert_run rotation_matrix c x pre l f o)).
    specialize (IH (pre ++ [Mx.matmul rotation_matrix (x -v c) +v c]) f o).
    rewrite length_app, Nat.add_1_r, <- !app_assoc in IH. simpl in IH.
    exact IH.
Qed.

(** ** What one call of [draw_lsystem] does to the world *)

Section Draw.

Variable faces_accepts : World -> list nat -> bool.

Lemma draw_lsystem_run (position : Vector) (axiom : string) (rules : dict)
  (iterations : Z) (angle distance rotation_angle : R) (w : World) :
  let r := lsystem_trace position axiom rules iterations angle distance in
  let vert_list := seq (List.length (verts w)) (List.length (emitted r)) in
  let w1 := mkWorld (verts w ++ emitted r) (faces w) (stdout w) in
  draw_lsystem faces_accepts position axiom rules iterations angle distance
    rotation_angle w
  = (Ret tt,
     if (2 <? List.length (emitted r))%nat then
       mkWorld (verts w ++ map (twisted rotation_angle (cursor r)) (emitted r))
         (if faces_accepts w1 vert_list then faces w ++ [vert_list] else faces w)
         (if faces_accepts w1 vert_list then stdout w
          else stdout w ++ [face_error])
     else w1).
Proof.
  intros r vert_list w1. unfold draw_lsystem.
  rewrite (bind_ret_run _ _ _ _ _ (walk_run angle distance _ position (Vec 0 1 0) [] w)).
  fold (lsystem_trace position axiom rules iterations angle distance).
  fold r. change (@nil nat ++ ?l) with l. rewrite length_seq.
  fold vert_list. fold w1.
  destruct (2 <? List.length (emitted r))%nat; [| reflexivity].
  unfold bind at 1, try_except_ValueError, bm_faces_new, print.
  destruct (faces_accepts w1 vert_list); simpl;
    unfold vert_list; rewrite twist_loop_run; reflexivity.
Qed.

End Draw.

(** ** The twist is a rotation about the final cursor *)

Lemma matmul_identity (v : Vector) :
  Mx.matmul (Mx.to_4x4 Mx.identity3) v = v.
Proof. destruct v. apply vec_eq; simpl; ring. Qed.

Lemma axis_angle_isometry (n v : Vector) (angle : R) :
  V.dot n n = 1 ->
  V.dot (Mx.matmul (Mx.to_4x4 (Mx.axis_angle_normalized n angle)) v)
        (Mx.matmul (Mx.to_4x4 (Mx.axis_angle_normalized n angle)) v)
  = V.dot v v.
Proof.
  intros Hn.
  pose proof (sin2_cos2 angle) as Hcs. unfold Rsqr in Hcs.
  destruct n as [x y z], v as [a b c].
  unfold V.dot, Mx.matmul, Mx.to_4x4, Mx.axis_angle_normalized in *.
  simpl in *.
  generalize dependent (cos angle). generalize dependent (sin angle).
  intros s co Hcs. nsatz.
Qed.

Lemma Rotation_isometry (angle : R) (axis v : Vector) :
  V.dot (Mx.matmul (Mx.Rotation angle axis) v)
        (Mx.matmul (Mx.Rotation angle axis) v)
  = V.dot v v.
Proof.
  unfold Mx.Rotation.
  destruct (Req_dec_T (V.length axis) 0) as [E | E].
  - rewrite matmul_identity. reflexivity.
  - apply axis_angle_isometry, normalized_dot.
    intros H. apply E, length_zero_iff, H.
Qed.

Lemma add_sub_cancel (a c : Vector) : (a +v c) -v c = a.
Proof. destruct a, c. apply vec_eq; simpl; ring. Qed.


Lemma last_cons_default {A} (l : list A) (x d d' : A) :
  last (x :: l) d = last (x :: l) d'.
Proof.
  revert x. induction l as [| y l IH]; intros x; [reflexivity |].
  change (last (y :: l) d = last (y :: l) d'). apply IH.
Qed.

Lemma trace_cursor_last (angle distance : R) (s : list ascii) :
  forall position direction,
    let r := trace angle distance position direction s in
    cursor r = last (emitted r) position.
Proof.
  unfold cursor, emitted.
  induction s as [| char s IH]; intros position direction; simpl.
  - reflexivity.
  - destruct (Ascii.eqb char "F"); simpl.
    + rewrite IH.
      destruct (snd (trace angle distance
                       (position +v V.scale direction distance) direction s));
        [reflexivity | apply last_cons_default].
    + destruct (Ascii.eqb char "+"); [apply IH |].
      destruct (Ascii.eqb char "-"); apply IH.
Qed.

(** ** The walk of the Koch grammar is closed *)








(** ** Claims on [draw_lsystem] *)








(** C9: a call of [draw_lsystem] never raises.  When the walk emits more
    than 2 vertices, the backend is asked once, for the face made of all the
    new vertices in the order of their creation, on the mesh as the walk left
    it: if it builds the face, that one face is added and nothing is printed;
    if it raises [ValueError], no face is added and the message is printed.
    Either way the new vertices are in the mesh. *)
Theorem draw_lsystem_face_attempt
  (faces_accepts : World -> list nat -> bool) (position : Vector)
  (axiom : string) (rules : dict) (iterations : Z)
  (angle distance rotation_angle : R) (w : World) :
  let r := lsystem_trace position axiom rules iterations angle distance in
  let vert_list := seq (List.length (verts w)) (List.length (emitted r)) in
  let w1 := mkWorld (verts w ++ emitted r) (faces w) (stdout w) in
  let res := draw_lsystem faces_accepts position axiom rules iterations angle
               distance rotation_angle w in
  (2 < List.length (emitted r))%nat ->
  fst res = Ret tt /\
  try_except_ValueError (bm_faces_new faces_accepts vert_list)
    (print face_error) w1
  = (Ret tt, mkWorld (verts w1) (faces (snd res)) (stdout (snd res))) /\
  (faces_accepts w1 vert_list = true ->
   faces (snd res) = faces w ++ [vert_list] /\ stdout (snd res) = stdout w) /\
  (faces_accepts w1 vert_list = false ->
   faces (snd res) = faces w /\ stdout (snd res) = stdout w ++ [face_error]) /\
  List.length (verts (snd res))
  = (List.length (verts w) + List.length (emitted r))%nat.
Proof.
  intros r vert_list w1 res H.
  unfold res. rewrite draw_lsystem_run. fold r vert_list w1.
  apply Nat.ltb_lt in H. rewrite H. simpl.
  unfold try_except_ValueError, bm_faces_new, print.
  destruct (faces_accepts w1 vert_list); simpl;
    rewrite length_app, length_map;
    repeat split; try reflexivity; try discriminate;
    intros; try reflexivity; try discriminate.
Qed.

Lemma draw_lsystem_face_attempt_witness :
  let r := lsystem_trace (Vec 1 1 0) "FFF" [] 0 60 1 in
  let vert_list := seq (List.length (verts world0)) (List.length (emitted r)) in
  let w1 := mkWorld (verts world0 ++ emitted r) (faces world0) (stdout world0) in
  let res := draw_lsystem reject_all (Vec 1 1 0) "FFF" [] 0 60 1 30 world0 in
  (2 < List.length (emitted r))%nat /\
  fst res = Ret tt /\
  try_except_ValueError (bm_faces_new reject_all vert_list)
    (print face_error) w1
  = (Ret tt, mkWorld (verts w1) (faces (snd res)) (stdout (snd res))) /\
  (reject_all w1 vert_list = true ->
   faces (snd res) = faces world0 ++ [vert_list] /\
   stdout (snd res) = stdout world0) /\
  (reject_all w1 vert_list = false ->
   faces (snd res) = faces world0 /\
   stdout (snd res) = stdout world0 ++ [face_error]) /\
  List.length (verts (snd res))
  = (List.length (verts world0) + List.length (emitted r))%nat.
Proof.
  intros r vert_list w1 res.
  assert (H : (2 < List.length (emitted r))%nat).
  { unfold r, lsystem_trace. rewrite trace_emitted_length.
    vm_compute. apply le_n. }
  split; [exact H |].
  exact (draw_lsystem_face_attempt reject_all (Vec 1 1 0) "FFF" [] 0 60 1 30
           world0 H).
Defined.

(** ** The placement loops *)

Lemma range_In (n i : Z) : In i (range n) -> (0 <= i < n)%Z.
Proof.
  unfold range. rewrite in_map_iff. intros [k [E H]].
  apply in_seq in H. lia.
Qed.

Lemma range_length (n : Z) : List.length (range n) = Z.to_nat n.
Proof. unfold range. rewrite length_map, length_seq. reflexivity. Qed.

Lemma range_nonpos (n : Z) : (n <= 0)%Z -> range n = [].
Proof.
  intros H. unfold range.
  replace (Z.to_nat n) with 0%nat by lia. reflexivity.
Qed.

Lemma range_pos (n : Z) :
  (0 < n)%Z -> exists l, range n = 0%Z :: l.
Proof.
  intros H. unfold range.
  destruct (Z.to_nat n) as [| k] eqn:E; [lia |].
  simpl. eexists. reflexivity.
Qed.

Lemma IZR_range_neq_0 (n i : Z) : In i (range n) -> IZR n <> 0.
Proof.
  intros H. apply range_In in H.
  apply not_0_IZR. lia.
Qed.

Lemma pydiv_run (a b : R) (w : World) :
  b <> 0 -> pydiv a b w = (Ret (a / b), w).
Proof.
  intros H. unfold pydiv.
  destruct (Req_dec_T b 0); [contradiction | reflexivity].
Qed.

Lemma pydiv_zero (a b : R) (w : World) :
  b = 0 -> pydiv a b w = (Raise ZeroDivisionError, w).
Proof.
  intros H. unfold pydiv.
  destruct (Req_dec_T b 0); [reflexivity | contradiction].
Qed.

Lemma sqr_neq_0 (x : R) : x <> 0 -> x * x <> 0.
Proof. intros H. nra. Qed.

Lemma two_neq_0 : 2 <> 0.
Proof. lra. Qed.

Lemma flower_anchor_run (self : PhyllotaxisFlower) (i : Z) (w : World) :
  IZR (self_n self) <> 0 -> self_r0 self <> 0 ->
  flower_anchor self i w = (Ret (anchor_value self i), w).
Proof.
  intros Hn Hr. unfold flower_anchor.
  rewrite (bind_ret_run _ _ _ _ _ (pydiv_run _ _ w Hn)).
  rewrite (bind_ret_run _ _ _ _ _ (pydiv_run _ _ w two_neq_0)).
  rewrite (bind_ret_run _ _ _ _ _ (pydiv_run _ _ w (sqr_neq_0 _ Hr))).
  reflexivity.
Qed.

Lemma petal_local_run (self : PhyllotaxisFlower) (t0 : R) (j : Z) (w : World) :
  IZR (self_m self) <> 0 -> self_r1 self <> 0 ->
  petal_local self t0 j w = (Ret (local_value self t0 j), w).
Proof.
  intros Hm Hr. unfold petal_local.
  rewrite (bind_ret_run _ _ _ _ _ (pydiv_run _ _ w Hm)).
  rewrite (bind_ret_run _ _ _ _ _ (pydiv_run _ _ w (sqr_neq_0 _ Hr))).
  reflexivity.
Qed.

Lemma for_each_flat_map {A B} (g : A -> list B) (l : list A)
  (f : B -> M unit) (w : World) :
  for_each (flat_map g l) f w = for_each l (fun x => for_each (g x) f) w.
Proof.
  revert w. induction l as [| x l IH]; intros w; simpl.
  - reflexivity.
  - rewrite for_each_app. unfold bind.
    destruct (for_each (g x) f w) as [[[] | e] w1]; [apply IH | reflexivity].
Qed.

Lemma flat_map_length_const {A B} (g : A -> list B) (l : list A) (k : nat) :
  (forall x, List.length (g x) = k) ->
  List.length (flat_map g l) = (List.length l * k)%nat.
Proof.
  intros H. induction l as [| x l IH]; simpl; [reflexivity |].
  rewrite length_app, H, IH. reflexivity.
Qed.

Lemma petal_calls_length (self : PhyllotaxisFlower) :
  List.length (petal_calls self)
  = (Z.to_nat (self_n self) * Z.to_nat (self_m self))%nat.
Proof.
  unfold petal_calls.
  rewrite (flat_map_length_const _ _ (Z.to_nat (self_m self))).
  - rewrite range_length. reflexivity.
  - intros i. rewrite length_map. apply range_length.
Qed.

Section Placement.

Variable faces_accepts : World -> list nat -> bool.

Lemma flower_run (self : PhyllotaxisFlower) (i : Z) (w : World) :
  In i (range (self_n self)) ->
  self_r0 self <> 0 -> self_r1 self <> 0 ->
  flower faces_accepts self i w
  = for_each (map (petal_call self i) (range (self_m self)))
      (emit faces_accepts) w.
Proof.
  intros Hi H0 H1. unfold flower.
  rewrite (bind_ret_run _ _ _ _ _
             (flower_anchor_run self i w (IZR_range_neq_0 _ _ Hi) H0)).
  rewrite for_each_map. unfold petal_call.
  destruct (anchor_value self i) as [t0 p0].
  apply for_each_ext_in. intros j Hj w'. unfold petal.
  rewrite (bind_ret_run _ _ _ _ _
             (petal_local_run self t0 j w' (IZR_range_neq_0 _ _ Hj) H1)).
  unfold emit. cbn [fst snd]. reflexivity.
Qed.

Lemma geometry_run (self : PhyllotaxisFlower) (w : World) :
  self_r0 self <> 0 -> self_r1 self <> 0 ->
  geometry faces_accepts self w
  = (bmesh_new ;;; for_each (petal_calls self) (emit faces_accepts)) w.
Proof.
  intros H0 H1. unfold geometry, bind, bmesh_new.
  unfold petal_calls. rewrite for_each_flat_map.
  apply for_each_ext_in. intros i Hi w'. apply flower_run; assumption.
Qed.

Lemma koch_emitted_length (p : Vector) :
  List.length (emitted (lsystem_trace p koch_axiom koch_rules 4 60 (5 / 100)))
  = 768%nat.
Proof.
  unfold lsystem_trace. rewrite trace_emitted_length.
  vm_compute. reflexivity.
Qed.

Lemma emit_run (call : Vector * R) (w : World) :
  exists w',
    emit faces_accepts call w = (Ret tt, w') /\
    List.length (verts w') = (List.length (verts w) + 768)%nat /\
    (List.length (faces w') <= S (List.length (faces w)))%nat /\
    (List.length (faces w') + List.length (stdout w')
     = S (List.length (faces w) + List.length (stdout w)))%nat.
Proof.
  unfold emit. rewrite draw_lsystem_run.
  pose proof (koch_emitted_length (fst call)) as L.
  set (r := lsystem_trace (fst call) koch_axiom koch_rules 4 60 (5 / 100)) in *.
  clearbody r. rewrite L.
  replace (2 <? 768)%nat with true by reflexivity.
  destruct (faces_accepts _ _);
    (eexists; split; [reflexivity |]; cbn [verts faces stdout];
     rewrite length_app, length_map, L, ?length_app; cbn [List.length]; lia).
Qed.

Lemma emit_all_run (calls : list (Vector * R)) :
  forall w, exists w',
    for_each calls (emit faces_accepts) w = (Ret tt, w') /\
    List.length (verts w')
    = (List.length (verts w) + 768 * List.length calls)%nat /\
    (List.length (faces w') + List.length (stdout w')
     = List.length (faces w) + List.length (stdout w) + List.length calls)%nat.
Proof.
  induction calls as [| c calls IH]; intros w.
  - exists w. simpl. repeat split; lia.
  - destruct (emit_run c w) as (w1 & E1 & V1 & _ & F1).
    destruct (IH w1) as (w2 & E2 & V2 & F2).
    exists w2. simpl for_each.
    rewrite (bind_ret_run _ _ _ _ _ E1). simpl List.length.
    repeat split; [exact E2 | lia | lia].
Qed.

End Placement.

(** ** Claims on [geometry] *)

Lemma init_calls_length : List.length (petal_calls init) = 2000%nat.
Proof. rewrite petal_calls_length. reflexivity. Qed.

Lemma ten_neq_0 : 10 <> 0.
Proof. lra. Qed.

(** C8: with [n = 200] and [m = 10], [geometry] is the 2000 calls of
    [draw_lsystem] on the petal positions, one after the other; it does not
    raise, each call adds at most one face, the mesh has at most 2000 faces,
    and the faces and the printed failures add up to 2000. *)
Theorem geometry_init_calls (faces_accepts : World -> list nat -> bool) :
  let res := geometry faces_accepts init world0 in
  List.length (petal_calls init) = 2000%nat /\
  (forall w,
     geometry faces_accepts init w
     = (bmesh_new ;;; for_each (petal_calls init) (emit faces_accepts)) w) /\
  fst res = Ret tt /\
  (forall call w,
     (List.length (faces (snd (emit faces_accepts call w)))
      <= S (List.length (faces w)))%nat) /\
  (List.length (faces (snd res)) <= 2000)%nat /\
  (List.length (faces (snd res)) + List.length (stdout (snd res)) = 2000)%nat.
Proof.
  intros res.
  assert (G : forall w,
             geometry faces_accepts init w
             = (bmesh_new ;;; for_each (petal_calls init) (emit faces_accepts)) w).
  { intros w. apply geometry_run; exact ten_neq_0. }
  split; [exact init_calls_length |]. split; [exact G |].
  assert (C : forall call w,
             (List.length (faces (snd (emit faces_accepts call w)))
              <= S (List.length (faces w)))%nat).
  { intros call w.
    destruct (emit_run faces_accepts call w) as (w' & E & _ & F & _).
    rewrite E. exact F. }
  unfold res. rewrite G.
  pose proof init_calls_length as L.
  set (calls := petal_calls init) in *. clearbody calls.
  destruct (emit_all_run faces_accepts calls (mkWorld [] [] [])) as (w' & E & _ & F).
  rewrite (bind_ret_run bmesh_new _ world0 (mkWorld [] [] []) tt eq_refl).
  rewrite E. rewrite L in F. cbn [faces stdout List.length Nat.add] in F.
  cbn [fst snd].
  split; [reflexivity |]. split; [exact C |]. split; lia.
Qed.

(** C4 as stated fails: with [n = 0], [geometry] raises nothing. *)
Lemma geometry_zero_flowers_no_error :
  geometry accept_all (mkFlower 0 10 10 10 1 50 2) world0 = (Ret tt, world0).
Proof. reflexivity. Qed.

(** C4, as amended: when [n] or [r0] is zero no vertex and no face is ever
    added.  With [n] not positive the loop has no round and [geometry]
    returns the empty mesh without raising; with [n] positive and [r0] zero
    it raises [ZeroDivisionError] in the first round, on the empty mesh. *)
Theorem geometry_zero_configuration
  (faces_accepts : World -> list nat -> bool) (self : PhyllotaxisFlower)
  (w : World) :
  self_n self = 0%Z \/ self_r0 self = 0 ->
  geometry faces_accepts self w
  = (if (self_n self <=? 0)%Z then Ret tt else Raise ZeroDivisionError,
     mkWorld [] [] (stdout w)).
Proof.
  intros H. unfold geometry, bind at 1, bmesh_new.
  destruct (Z.leb_spec (self_n self) 0) as [Hn | Hn].
  - rewrite (range_nonpos _ Hn). reflexivity.
  - destruct H as [H | H]; [lia |].
    destruct (range_pos _ Hn) as [l E]. rewrite E. simpl for_each.
    apply bind_raise_run. unfold flower. apply bind_raise_run.
    unfold flower_anchor.
    assert (Hz : IZR (self_n self) <> 0) by (apply not_0_IZR; lia).
    rewrite (bind_ret_run _ _ _ _ _ (pydiv_run _ _ _ Hz)).
    rewrite (bind_ret_run _ _ _ _ _ (pydiv_run _ _ _ two_neq_0)).
    apply bind_raise_run, pydiv_zero. rewrite H. ring.
Qed.

Lemma geometry_zero_configuration_witness :
  let self := mkFlower 200 10 0 10 1 50 2 in
  (self_n self = 0%Z \/ self_r0 self = 0) /\
  geometry reject_all self world0
  = (if (self_n self <=? 0)%Z then Ret tt else Raise ZeroDivisionError,
     mkWorld [] [] (stdout world0)).
Proof.
  intros self.
  assert (H : self_n self = 0%Z \/ self_r0 self = 0) by (right; reflexivity).
  split; [exact H |].
  exact (geometry_zero_configuration reject_all self world0 H).
Defined.






(** * Further properties *)

(** ** More on [getTNBfromVector] *)














(** ** The orientation matrix of a frame *)







(** ** The rewriting of lines 47-52 *)

Lemma list_ascii_of_string_app (a b : string) :
  list_ascii_of_string (a ++ b)
  = (list_ascii_of_string a ++ list_ascii_of_string b)%list.
Proof.
  induction a as [| c a IH]; simpl; [reflexivity | now rewrite IH].
Qed.

Lemma string_app_assoc (a b c : string) :
  ((a ++ b) ++ c)%string = (a ++ (b ++ c))%string.
Proof.
  induction a as [| x a IH]; simpl; [reflexivity | now rewrite IH].
Qed.

Lemma string_app_empty_r (a : string) : (a ++ "")%string = a.
Proof.
  induction a as [| x a IH]; simpl; [reflexivity | now rewrite IH].
Qed.

Lemma rewrite_fold_acc (rules : dict) (l : list ascii) (acc : string) :
  fold_left
    (fun next_string char =>
       (next_string ++ dict_get rules (char_str char) (char_str char))%string)
    l acc
  = (acc ++
     fold_left
       (fun next_string char =>
          (next_string ++ dict_get rules (char_str char) (char_str char))%string)
       l EmptyString)%string.
Proof.
  revert acc. induction l as [| c l IH]; intros acc; simpl.
  - symmetry. apply string_app_empty_r.
  - rewrite IH. rewrite (IH (dict_get rules (char_str c) (char_str c))).
    apply string_app_assoc.
Qed.

Lemma rewrite_round_cons (rules : dict) (c : ascii) (s : string) :
  rewrite_round rules (String c s)
  = (dict_get rules (char_str c) (char_str c) ++ rewrite_round rules s)%string.
Proof.
  unfold rewrite_round. simpl. apply rewrite_fold_acc.
Qed.

Lemma expand_fixed (rules : dict) (s : string) (iterations : nat) :
  (forall char, In char (list_ascii_of_string s) ->
                dict_get rules (char_str char) (char_str char) = char_str char) ->
  rewrite_round rules s = s /\ expand rules iterations s = s.
Proof.
  intros H.
  assert (E : rewrite_round rules s = s).
  { induction s as [| c s IH]; [reflexivity |].
    rewrite rewrite_round_cons, (H c (or_introl eq_refl)), IH.
    - reflexivity.
    - intros char Hc. apply H. right. exact Hc. }
  split; [exact E |].
  induction iterations as [| k IH]; simpl; [reflexivity |].
  rewrite E. exact IH.
Qed.

(** X7: A string none of whose symbols has a rule (or whose rules map each
    symbol to itself) is left as it is by every number of rounds. *)
Theorem expand_without_rules (rules : dict) (s : string) (iterations : nat) :
  (forall char, In char (list_ascii_of_string s) ->
                dict_get rules (char_str char) (char_str char) = char_str char) ->
  rewrite_round rules s = s /\ expand rules iterations s = s.
Proof. exact (expand_fixed rules s iterations). Qed.

Lemma expand_without_rules_witness :
  (forall char, In char (list_ascii_of_string "+X-") ->
                dict_get koch_rules (char_str char) (char_str char)
                = char_str char) /\
  rewrite_round koch_rules "+X-" = "+X-"%string /\
  expand koch_rules 3 "+X-" = "+X-"%string.
Proof.
  assert (H : forall char, In char (list_ascii_of_string "+X-") ->
                dict_get koch_rules (char_str char) (char_str char)
                = char_str char).
  { intros char Hc. simpl in Hc.
    destruct Hc as [<- | [<- | [<- | []]]]; reflexivity. }
  split; [exact H |]. exact (expand_without_rules koch_rules "+X-" 3 H).
Defined.

Lemma rewrite_round_app (rules : dict) (a b : string) :
  rewrite_round rules (a ++ b)
  = (rewrite_round rules a ++ rewrite_round rules b)%string.
Proof.
  induction a as [| c a IH]; [reflexivity |].
  change (String c a ++ b)%string with (String c (a ++ b)).
  rewrite !rewrite_round_cons, IH. symmetry. apply string_app_assoc.
Qed.

Lemma expand_concat (rules : dict) (iterations k : nat) (a b : string) :
  expand rules iterations (a ++ b)
  = (expand rules iterations a ++ expand rules iterations b)%string /\
  expand rules (iterations + k) a = expand rules k (expand rules iterations a).
Proof.
  split.
  - revert a b. induction iterations as [| n IH]; intros a b; simpl.
    + reflexivity.
    + rewrite rewrite_round_app. apply IH.
  - revert a. induction iterations as [| n IH]; intros a; simpl.
    + reflexivity.
    + apply IH.
Qed.

(** X8: The rewriting is context-free: expanding a concatenation gives the
    concatenation of the expansions; and rounds add up. *)
Theorem expand_app (rules : dict) (iterations k : nat) (a b : string) :
  expand rules iterations (a ++ b)
  = (expand rules iterations a ++ expand rules iterations b)%string /\
  expand rules (iterations + k) a = expand rules k (expand rules iterations a).
Proof. exact (expand_concat rules iterations k a b). Qed.

(** ** The size of the Koch expansion *)

Lemma count_F_app (a b : string) :
  count_F (list_ascii_of_string (a ++ b))
  = (count_F (list_ascii_of_string a) + count_F (list_ascii_of_string b))%nat.
Proof.
  unfold count_F.
  rewrite list_ascii_of_string_app, filter_app, length_app. reflexivity.
Qed.

Lemma string_length_app (a b : string) :
  String.length (a ++ b) = (String.length a + String.length b)%nat.
Proof.
  induction a as [| c a IH]; simpl; [reflexivity | now rewrite IH].
Qed.

Lemma koch_round_counts (s : string) :
  count_F (list_ascii_of_string (rewrite_round koch_rules s))
  = (4 * count_F (list_ascii_of_string s))%nat /\
  String.length (rewrite_round koch_rules s)
  = (String.length s + 7 * count_F (list_ascii_of_string s))%nat.
Proof.
  induction s as [| c s [IH1 IH2]]; [split; reflexivity |].
  rewrite rewrite_round_cons, count_F_app, string_length_app, IH1, IH2.
  destruct (Ascii.eqb_spec c "F") as [-> | Hc].
  - split; [change (count_F (list_ascii_of_string (String "F" s)))
              with (S (count_F (list_ascii_of_string s))) |
            change (count_F (list_ascii_of_string (String "F" s)))
              with (S (count_F (list_ascii_of_string s)))];
      simpl; lia.
  - assert (G : dict_get koch_rules (char_str c) (char_str c) = char_str c).
    { unfold koch_rules, char_str. cbn [dict_get String.eqb].
      destruct (Ascii.eqb_spec "F" c) as [E | _]; [congruence |].
      reflexivity. }
    assert (Z : count_F (list_ascii_of_string (String c s))
                = count_F (list_ascii_of_string s)).
    { unfold count_F. cbn [list_ascii_of_string filter].
      destruct (Ascii.eqb_spec c "F") as [E | _]; [contradiction | reflexivity]. }
    assert (Z1 : count_F (list_ascii_of_string (char_str c)) = 0%nat).
    { unfold count_F, char_str. cbn [list_ascii_of_string filter].
      destruct (Ascii.eqb_spec c "F") as [E | _]; [contradiction | reflexivity]. }
    rewrite G, Z, Z1. cbn [String.length char_str]. split; lia.
Qed.

Lemma koch_expand_counts (iterations : nat) :
  forall s,
    count_F (list_ascii_of_string (expand koch_rules iterations s))
    = (4 ^ iterations * count_F (list_ascii_of_string s))%nat /\
    (3 * String.length (expand koch_rules iterations s)
     + 7 * count_F (list_ascii_of_string s)
     = 3 * String.length s
       + 7 * (4 ^ iterations * count_F (list_ascii_of_string s)))%nat.
Proof.
  induction iterations as [| n IH]; intros s.
  - simpl. split; lia.
  - change (expand koch_rules (S n) s)
      with (expand koch_rules n (rewrite_round koch_rules s)).
    destruct (IH (rewrite_round koch_rules s)) as [C L].
    destruct (koch_round_counts s) as [C1 L1].
    rewrite C1 in C, L. rewrite L1 in L.
    rewrite Nat.pow_succ_r'. split; [rewrite C; lia | nia].
Qed.

(** X9: After any number of rounds the string of the grammar [geometry] uses has
    [3 * 4^n] symbols F, so as many vertices, among [7 * 4^n] symbols. *)
Theorem koch_expansion_size (iterations : nat) :
  count_F (list_ascii_of_string (expand koch_rules iterations koch_axiom))
  = (3 * 4 ^ iterations)%nat /\
  String.length (expand koch_rules iterations koch_axiom)
  = (7 * 4 ^ iterations)%nat.
Proof.
  destruct (koch_expand_counts iterations koch_axiom) as [C L].
  change (count_F (list_ascii_of_string koch_axiom)) with 3%nat in C, L.
  change (String.length koch_axiom) with 7%nat in L.
  split; lia.
Qed.

(** ** More on [draw_lsystem] *)

Section DrawMore.

Variable faces_accepts : World -> list nat -> bool.

(** X10: A call only appends: the vertices, faces and printed lines that were
    there stay as they were and where they were.  It adds one vertex for each
    F of the expanded string, at most one face (made of exactly the new
    vertices) and at most one printed line, never both. *)
Theorem draw_lsystem_appends (position : Vector) (axiom : string)
  (rules : dict) (iterations : Z) (angle distance rotation_angle : R)
  (w : World) :
  exists vs fs out,
    draw_lsystem faces_accepts position axiom rules iterations angle distance
      rotation_angle w
    = (Ret tt, mkWorld (verts w ++ vs) (faces w ++ fs) (stdout w ++ out)) /\
    List.length vs
    = count_F (list_ascii_of_string (expand rules (Z.to_nat iterations) axiom)) /\
    (fs = [] \/ fs = [seq (List.length (verts w)) (List.length vs)]) /\
    (out = [] \/ out = [face_error]) /\
    (List.length fs + List.length out <= 1)%nat.
Proof.
  rewrite draw_lsystem_run.
  set (r := lsystem_trace position axiom rules iterations angle distance).
  assert (L : List.length (emitted r)
              = count_F (list_ascii_of_string
                           (expand rules (Z.to_nat iterations) axiom))).
  { unfold r, lsystem_trace. apply trace_emitted_length. }
  destruct (2 <? List.length (emitted r))%nat.
  - exists (map (twisted rotation_angle (cursor r)) (emitted r)).
    destruct (faces_accepts _ _).
    + exists [seq (List.length (verts w)) (List.length (emitted r))], [].
      rewrite app_nil_r, length_map.
      repeat split; auto.
    + exists [], [face_error].
      rewrite app_nil_r, length_map.
      repeat split; auto.
  - exists (emitted r), [], []. rewrite !app_nil_r.
    destruct w; simpl. repeat split; auto.
Qed.

(** X11: With 2 vertices or fewer nothing but the walk happens: the vertices stay
    where the walk put them, no face is asked for and nothing is printed. *)
Theorem draw_lsystem_short (position : Vector) (axiom : string)
  (rules : dict) (iterations : Z) (angle distance rotation_angle : R)
  (w : World) :
  (count_F (list_ascii_of_string (expand rules (Z.to_nat iterations) axiom))
   <= 2)%nat ->
  draw_lsystem faces_accepts position axiom rules iterations angle distance
    rotation_angle w
  = (Ret tt,
     mkWorld
       (verts w
        ++ emitted (lsystem_trace position axiom rules iterations angle
                      distance))
       (faces w) (stdout w)).
Proof.
  intros H. rewrite draw_lsystem_run.
  set (r := lsystem_trace position axiom rules iterations angle distance).
  assert (L : List.length (emitted r)
              = count_F (list_ascii_of_string
                           (expand rules (Z.to_nat iterations) axiom))).
  { unfold r, lsystem_trace. apply trace_emitted_length. }
  rewrite L.
  destruct (Nat.ltb_spec 2
              (count_F (list_ascii_of_string
                          (expand rules (Z.to_nat iterations) axiom))));
    [lia | reflexivity].
Qed.

End DrawMore.

Lemma draw_lsystem_short_witness :
  (count_F (list_ascii_of_string (expand koch_rules (Z.to_nat 0) "F+F")) <= 2)%nat /\
  draw_lsystem accept_all (Vec 1 1 0) "F+F" koch_rules 0 60 1 30 world0
  = (Ret tt,
     mkWorld
       (verts world0
        ++ emitted (lsystem_trace (Vec 1 1 0) "F+F" koch_rules 0 60 1))
       (faces world0) (stdout world0)).
Proof.
  assert (H : (count_F (list_ascii_of_string
                          (expand koch_rules (Z.to_nat 0) "F+F")) <= 2)%nat).
  { vm_compute. apply le_n. }
  split; [exact H |].
  exact (draw_lsystem_short accept_all (Vec 1 1 0) "F+F" koch_rules 0 60 1 30
           world0 H).
Defined.

Lemma radians_0 : radians 0 = 0.
Proof. unfold radians. ring. Qed.

Lemma twisted_zero_angle (c co : Vector) : twisted 0 c co = co.
Proof.
  unfold twisted, Mx.Rotation. rewrite radians_0.
  destruct (Req_dec_T _ 0) as [_ | _].
  - rewrite matmul_identity. destruct co, c. apply vec_eq; simpl; ring.
  - unfold Mx.axis_angle_normalized. rewrite cos_0, sin_0.
    destruct co, c. apply vec_eq; simpl; ring.
Qed.

Lemma map_id_ext {A} (f : A -> A) (l : list A) :
  (forall x, f x = x) -> map f l = l.
Proof.
  intros H. induction l as [| x l IH]; simpl; [reflexivity |].
  rewrite H, IH. reflexivity.
Qed.

(** X12: With a twist of 0 degrees every vertex stays where the walk put it. *)
Theorem draw_lsystem_no_twist (faces_accepts : World -> list nat -> bool)
  (position : Vector) (axiom : string) (rules : dict) (iterations : Z)
  (angle distance : R) (w : World) :
  verts (snd (draw_lsystem faces_accepts position axiom rules iterations angle
                distance 0 w))
  = verts w
    ++ emitted (lsystem_trace position axiom rules iterations angle distance).
Proof.
  rewrite draw_lsystem_run.
  destruct (2 <? _)%nat; simpl; [| reflexivity].
  rewrite (map_id_ext _ _ (twisted_zero_angle _)). reflexivity.
Qed.




Lemma twisted_cursor (rotation_angle : R) (c : Vector) :
  twisted rotation_angle c c = c.
Proof.
  unfold twisted, Mx.Rotation.
  destruct (Req_dec_T _ 0) as [_ | _]; destruct c; apply vec_eq; simpl; ring.
Qed.

Lemma last_map {A B} (f : A -> B) (l : list A) (d : A) :
  last (map f l) (f d) = f (last l d).
Proof.
  induction l as [| x l IH]; [reflexivity |].
  destruct l as [| y l]; [reflexivity |]. exact IH.
Qed.

Lemma last_app_nonempty {A} (l1 l2 : list A) (d : A) :
  l2 <> [] -> last (l1 ++ l2) d = last l2 d.
Proof.
  intros H. induction l1 as [| x l1 IH]; [reflexivity |].
  simpl app. destruct (l1 ++ l2) eqn:E.
  - apply app_eq_nil in E. destruct E. contradiction.
  - exact IH.
Qed.

Lemma last_vertex_is_cursor
  (faces_accepts : World -> list nat -> bool)
  (position : Vector) (axiom : string) (rules : dict) (iterations : Z)
  (angle distance rotation_angle : R) (w : World) (d : Vector) :
  let r := lsystem_trace position axiom rules iterations angle distance in
  (2 < List.length (emitted r))%nat ->
  last (verts (snd (draw_lsystem faces_accepts position axiom rules iterations
                      angle distance rotation_angle w))) d
  = last (emitted r) d /\
  last (emitted r) d = cursor r.
Proof.
  intros r H.
  assert (N : emitted r <> []).
  { intros E. rewrite E in H. simpl in H. lia. }
  assert (C : last (emitted r) d = cursor r).
  { unfold r, lsystem_trace. rewrite trace_cursor_last.
    fold (lsystem_trace position axiom rules iterations angle distance). fold r.
    destruct (emitted r) as [| x l]; [contradiction |].
    apply last_cons_default. }
  split; [| exact C].
  rewrite draw_lsystem_run. fold r.
  apply Nat.ltb_lt in H. rewrite H. simpl verts.
  rewrite last_app_nonempty.
  - rewrite C.
    destruct (emitted r) as [| x l] eqn:E; [contradiction |].
    simpl map.
    rewrite (last_cons_default _ _ d
               (twisted rotation_angle (cursor r) (cursor r))).
    change (twisted rotation_angle (cursor r) x
            :: map (twisted rotation_angle (cursor r)) l)
      with (map (twisted rotation_angle (cursor r)) (x :: l)).
    rewrite last_map, (last_cons_default _ _ (cursor r) d), C.
    apply twisted_cursor.
  - intros E. apply map_eq_nil in E. contradiction.
Qed.

(** X14: The last vertex of a call is the pivot of its twist: when more than 2
    vertices are emitted it is a vertex the twist does not move. *)
Theorem draw_lsystem_last_vertex_fixed
  (faces_accepts : World -> list nat -> bool)
  (position : Vector) (axiom : string) (rules : dict) (iterations : Z)
  (angle distance rotation_angle : R) (w : World) (d : Vector) :
  let r := lsystem_trace position axiom rules iterations angle distance in
  (2 < List.length (emitted r))%nat ->
  last (verts (snd (draw_lsystem faces_accepts position axiom rules iterations
                      angle distance rotation_angle w))) d
  = last (emitted r) d /\
  last (emitted r) d = cursor r.
Proof.
  exact (last_vertex_is_cursor faces_accepts position axiom rules iterations
           angle distance rotation_angle w d).
Qed.

Lemma draw_lsystem_last_vertex_fixed_witness :
  let r := lsystem_trace (Vec 1 1 0) "FFF" [] 0 60 1 in
  (2 < List.length (emitted r))%nat /\
  last (verts (snd (draw_lsystem accept_all (Vec 1 1 0) "FFF" [] 0 60 1 30
                      world0))) V.zero
  = last (emitted r) V.zero /\
  last (emitted r) V.zero = cursor r.
Proof.
  intros r.
  assert (H : (2 < List.length (emitted r))%nat).
  { unfold r, lsystem_trace. rewrite trace_emitted_length.
    vm_compute. apply le_n. }
  split; [exact H |].
  exact (draw_lsystem_last_vertex_fixed accept_all (Vec 1 1 0) "FFF" [] 0 60 1
           30 world0 V.zero H).
Defined.

(** ** The shape of the curve *)

Lemma rotate_Z_dot (v : Vector) (angle : R) :
  V.dot (Mx.rotate v (Mx.Rotation_Z angle)) (Mx.rotate v (Mx.Rotation_Z angle))
  = V.dot v v.
Proof.
  pose proof (sin2_cos2 angle) as H. unfold Rsqr in H.
  destruct v as [x y z].
  unfold Mx.rotate, Mx.Rotation_Z, Mx.mul3, V.dot; simpl.
  generalize dependent (cos angle). generalize dependent (sin angle).
  intros s c H. nsatz.
Qed.

Lemma rotate_Z_back (v : Vector) (angle : R) :
  Mx.rotate (Mx.rotate v (Mx.Rotation_Z angle)) (Mx.Rotation_Z (- angle)) = v /\
  Mx.rotate (Mx.rotate v (Mx.Rotation_Z (- angle))) (Mx.Rotation_Z angle) = v.
Proof.
  pose proof (sin2_cos2 angle) as H. unfold Rsqr in H.
  destruct v as [x y z].
  unfold Mx.rotate, Mx.Rotation_Z, Mx.mul3, V.dot; simpl.
  rewrite cos_neg, sin_neg.
  generalize dependent (cos angle). generalize dependent (sin angle).
  intros s c H. split; apply vec_eq; simpl; nsatz.
Qed.

Lemma length_scale_unit (v : Vector) (k : R) :
  V.dot v v = 1 -> V.length (V.scale v k) = Rabs k.
Proof.
  intros H. unfold V.length.
  replace (V.dot (V.scale v k) (V.scale v k)) with (Rsqr k * V.dot v v)
    by (unfold V.dot, V.scale, Rsqr; simpl; ring).
  rewrite H, Rmult_1_r. apply sqrt_Rsqr_abs.
Qed.

Lemma trace_steps (angle distance : R) (s : list ascii) :
  forall position direction,
    V.dot direction direction = 1 ->
    let l := emitted (trace angle distance position direction s) in
    forall i, (i < List.length l)%nat ->
      V.length (nth i l V.zero -v nth i (position :: l) V.zero) = Rabs distance.
Proof.
  unfold emitted.
  induction s as [| char s IH]; intros position direction U; simpl.
  - intros i Hi. simpl in Hi. lia.
  - destruct (Ascii.eqb char "F").
    + simpl. intros [| i] Hi.
      * replace (position +v V.scale direction distance -v position)
          with (V.scale direction distance)
          by (destruct position, direction; apply vec_eq; simpl; ring).
        apply length_scale_unit, U.
      * apply (IH _ direction U). lia.
    + destruct (Ascii.eqb char "+");
        [apply IH; rewrite rotate_Z_dot; exact U |].
      destruct (Ascii.eqb char "-");
        [apply IH; rewrite rotate_Z_dot; exact U |].
      apply IH, U.
Qed.

Lemma twisted_difference (rotation_angle : R) (c a b : Vector) :
  V.length (twisted rotation_angle c a -v twisted rotation_angle c b)
  = V.length (a -v b).
Proof.
  unfold twisted.
  replace (Mx.matmul (Mx.Rotation (radians rotation_angle) (V.normalized c))
             (a -v c) +v c
           -v (Mx.matmul (Mx.Rotation (radians rotation_angle) (V.normalized c))
                 (b -v c) +v c))
    with (Mx.matmul (Mx.Rotation (radians rotation_angle) (V.normalized c))
            (a -v b)).
  - unfold V.length. rewrite Rotation_isometry. reflexivity.
  - unfold Mx.Rotation.
    destruct (Req_dec_T _ 0) as [_ | _];
      destruct a, b, c; apply vec_eq; simpl; ring.
Qed.

(** X15: In the mesh a call leaves, each new vertex is at distance
    [|distance|] from the one created before it: the walk takes steps of
    that length and the twist is rigid. *)
Theorem draw_lsystem_edge_lengths
  (faces_accepts : World -> list nat -> bool)
  (position : Vector) (axiom : string) (rules : dict) (iterations : Z)
  (angle distance rotation_angle : R) (w : World) :
  exists vs,
    verts (snd (draw_lsystem faces_accepts position axiom rules iterations
                  angle distance rotation_angle w))
    = verts w ++ vs /\
    List.length vs
    = count_F (list_ascii_of_string (expand rules (Z.to_nat iterations) axiom)) /\
    forall i, (S i < List.length vs)%nat ->
      V.length (nth (S i) vs V.zero -v nth i vs V.zero) = Rabs distance.
Proof.
  rewrite draw_lsystem_run.
  set (r := lsystem_trace position axiom rules iterations angle distance).
  assert (L : List.length (emitted r)
              = count_F (list_ascii_of_string
                           (expand rules (Z.to_nat iterations) axiom))).
  { unfold r, lsystem_trace. apply trace_emitted_length. }
  assert (U : V.dot (Vec 0 1 0) (Vec 0 1 0) = 1) by (unfold V.dot; simpl; ring).
  assert (S0 : forall i, (S i < List.length (emitted r))%nat ->
                 V.length (nth (S i) (emitted r) V.zero
                           -v nth i (emitted r) V.zero) = Rabs distance).
  { intros i Hi.
    exact (trace_steps angle distance _ position (Vec 0 1 0) U (S i) Hi). }
  destruct (2 <? List.length (emitted r))%nat.
  - exists (map (twisted rotation_angle (cursor r)) (emitted r)).
    rewrite length_map. split; [reflexivity |]. split; [exact L |].
    intros i Hi.
    rewrite (nth_indep _ V.zero (twisted rotation_angle (cursor r) V.zero))
      by (rewrite length_map; exact Hi).
    rewrite (nth_indep _ V.zero (twisted rotation_angle (cursor r) V.zero)
               (n := i)) by (rewrite length_map; lia).
    rewrite !map_nth, twisted_difference. apply S0, Hi.
  - exists (emitted r). split; [reflexivity |]. split; [exact L |]. exact S0.
Qed.

(** X16: A left turn followed by a right turn of the same angle, or the reverse,
    changes nothing: when the rules leave the two turn symbols alone, a call
    whose axiom starts with [+-] or [-+] does what the call without them
    does. *)
Theorem draw_lsystem_turns_cancel
  (faces_accepts : World -> list nat -> bool)
  (position : Vector) (axiom : string) (rules : dict) (iterations : Z)
  (angle distance rotation_angle : R) (w : World) :
  dict_get rules "+" "+" = "+"%string ->
  dict_get rules "-" "-" = "-"%string ->
  draw_lsystem faces_accepts position ("+-" ++ axiom) rules iterations angle
    distance rotation_angle w
  = draw_lsystem faces_accepts position axiom rules iterations angle distance
      rotation_angle w /\
  draw_lsystem faces_accepts position ("-+" ++ axiom) rules iterations angle
    distance rotation_angle w
  = draw_lsystem faces_accepts position axiom rules iterations angle distance
      rotation_angle w.
Proof.
  intros Hp Hm.
  assert (K1 : expand rules (Z.to_nat iterations) "+-" = "+-"%string).
  { apply expand_fixed. intros char Hc. simpl in Hc.
    destruct Hc as [<- | [<- | []]]; assumption. }
  assert (K2 : expand rules (Z.to_nat iterations) "-+" = "-+"%string).
  { apply expand_fixed. intros char Hc. simpl in Hc.
    destruct Hc as [<- | [<- | []]]; assumption. }
  assert (T1 : lsystem_trace position ("+-" ++ axiom) rules iterations angle
                 distance
               = lsystem_trace position axiom rules iterations angle distance).
  { unfold lsystem_trace.
    rewrite (proj1 (expand_concat rules (Z.to_nat iterations) 0 "+-" axiom)), K1.
    cbn [String.append list_ascii_of_string trace Ascii.eqb Bool.eqb].
    rewrite (proj1 (rotate_Z_back _ _)). reflexivity. }
  assert (T2 : lsystem_trace position ("-+" ++ axiom) rules iterations angle
                 distance
               = lsystem_trace position axiom rules iterations angle distance).
  { unfold lsystem_trace.
    rewrite (proj1 (expand_concat rules (Z.to_nat iterations) 0 "-+" axiom)), K2.
    cbn [String.append list_ascii_of_string trace Ascii.eqb Bool.eqb].
    rewrite (proj2 (rotate_Z_back _ _)). reflexivity. }
  split; rewrite !draw_lsystem_run; [rewrite T1 | rewrite T2]; reflexivity.
Qed.

Lemma draw_lsystem_turns_cancel_witness :
  (dict_get koch_rules "+" "+" = "+"%string /\
   dict_get koch_rules "-" "-" = "-"%string) /\
  draw_lsystem accept_all (Vec 1 1 0) ("+-" ++ koch_axiom) koch_rules 2 60 1 30
    world0
  = draw_lsystem accept_all (Vec 1 1 0) koch_axiom koch_rules 2 60 1 30 world0 /\
  draw_lsystem accept_all (Vec 1 1 0) ("-+" ++ koch_axiom) koch_rules 2 60 1 30
    world0
  = draw_lsystem accept_all (Vec 1 1 0) koch_axiom koch_rules 2 60 1 30 world0.
Proof.
  assert (Hp : dict_get koch_rules "+" "+" = "+"%string) by reflexivity.
  assert (Hm : dict_get koch_rules "-" "-" = "-"%string) by reflexivity.
  split; [split; [exact Hp | exact Hm] |].
  exact (draw_lsystem_turns_cancel accept_all (Vec 1 1 0) koch_axiom koch_rules
           2 60 1 30 world0 Hp Hm).
Defined.

(** ** More on [geometry] *)

Section PlacementMore.

Variable faces_accepts : World -> list nat -> bool.




End PlacementMore.



(** ** Where the flowers are *)



(** ** The faces of the mesh *)








(** ** The petals pass through their anchors *)


(** ** The twist angle of a petal *)



(** ** The curve is flat *)

Lemma rotate_Z_vz (v : Vector) (angle : R) :
  vz (Mx.rotate v (Mx.Rotation_Z angle)) = vz v.
Proof.
  unfold Mx.rotate, Mx.Rotation_Z, Mx.mul3, V.dot; simpl. ring.
Qed.

Lemma trace_planar (angle distance : R) (s : list ascii) :
  forall position direction,
    vz direction = 0 ->
    let r := trace angle distance position direction s in
    vz (cursor r) = vz position /\
    forall v, In v (emitted r) -> vz v = vz position.
Proof.
  unfold cursor, emitted.
  induction s as [| char s IH]; intros position direction Z; simpl.
  - split; [reflexivity | intros v []].
  - destruct (Ascii.eqb char "F").
    + destruct (IH (position +v V.scale direction distance) direction Z)
        as [C E].
      assert (P : vz (position +v V.scale direction distance) = vz position).
      { simpl. rewrite Z. ring. }
      simpl. split; [rewrite C; exact P |].
      intros v [<- | Hv]; [exact P | rewrite (E v Hv); exact P].
    + destruct (Ascii.eqb char "+");
        [apply IH; rewrite rotate_Z_vz; exact Z |].
      destruct (Ascii.eqb char "-");
        [apply IH; rewrite rotate_Z_vz; exact Z |].
      apply IH, Z.
Qed.

Lemma Rotation_linear (angle : R) (axis a b : Vector) :
  Mx.matmul (Mx.Rotation angle axis) (a +v b)
  = Mx.matmul (Mx.Rotation angle axis) a +v Mx.matmul (Mx.Rotation angle axis) b.
Proof.
  unfold Mx.Rotation.
  destruct (Req_dec_T _ 0) as [_ | _]; apply vec_eq; simpl; ring.
Qed.

Lemma dot_polar (a b : Vector) :
  V.dot a b = (V.dot (a +v b) (a +v b) - V.dot a a - V.dot b b) / 2.
Proof. unfold V.dot, V.add; simpl. field. Qed.

Lemma Rotation_dot (angle : R) (axis a b : Vector) :
  V.dot (Mx.matmul (Mx.Rotation angle axis) a)
        (Mx.matmul (Mx.Rotation angle axis) b)
  = V.dot a b.
Proof.
  rewrite (dot_polar (Mx.matmul _ a)), <- Rotation_linear, !Rotation_isometry.
  symmetry. apply dot_polar.
Qed.

(** X24: The new vertices of a call lie in one plane through the final cursor:
    the walk stays at the height of its origin, and the twist turns that
    plane as a whole. *)
Theorem draw_lsystem_planar
  (faces_accepts : World -> list nat -> bool)
  (position : Vector) (axiom : string) (rules : dict) (iterations : Z)
  (angle distance rotation_angle : R) (w : World) :
  let c := cursor (lsystem_trace position axiom rules iterations angle distance) in
  exists vs normal,
    verts (snd (draw_lsystem faces_accepts position axiom rules iterations
                  angle distance rotation_angle w))
    = verts w ++ vs /\
    V.dot normal normal = 1 /\
    forall v, In v vs -> V.dot (v -v c) normal = 0.
Proof.
  intros c. rewrite draw_lsystem_run.
  set (r := lsystem_trace position axiom rules iterations angle distance) in *.
  destruct (trace_planar angle distance
              (list_ascii_of_string (expand rules (Z.to_nat iterations) axiom))
              position (Vec 0 1 0) eq_refl) as [C E].
  fold (lsystem_trace position axiom rules iterations angle distance) in C, E.
  fold r in C, E. fold c in C.
  assert (F : forall v, In v (emitted r) -> V.dot (v -v c) (Vec 0 0 1) = 0).
  { intros v Hv. unfold V.dot; simpl. rewrite (E v Hv), C. ring. }
  destruct (2 <? List.length (emitted r))%nat.
  - exists (map (twisted rotation_angle c) (emitted r)),
      (Mx.matmul (Mx.Rotation (radians rotation_angle) (V.normalized c))
         (Vec 0 0 1)).
    split; [reflexivity |]. split.
    + rewrite Rotation_isometry. unfold V.dot; simpl. ring.
    + intros v Hv. apply in_map_iff in Hv. destruct Hv as [u [<- Hu]].
      unfold twisted. rewrite add_sub_cancel, Rotation_dot. apply F, Hu.
  - exists (emitted r), (Vec 0 0 1).
    split; [reflexivity |]. split; [unfold V.dot; simpl; ring | exact F].
Qed.
